(** * bento-cbor: the CBOR <-> JSON processor

    A shallow embedding of the two processor variants of the repository
    (package [cbor]) and of the key-normalisation helper
    [convertToStringKeyMap], followed by the properties of the
    specification that concern them.

    The CBOR codec (github.com/fxamacker/cbor), Go's [encoding/json] and the
    host's [service.Message] are not part of the repository.  The processor
    only reaches them through a handful of calls; they are interfaces here,
    and every theorem about the operators holds for all their
    implementations. *)

From Stdlib Require Import ZArith String DecimalString.
From Stdlib Require DecimalPos DecimalZ.
From Stdlib.Strings Require Import Byte.
From stdpp Require Import gmap strings list fin_maps.

(* ================================================================== *)
(** * Go values *)

(** [[]byte]. *)
Abbreviation bytes := (list byte).

(** Go's [error] values as the processor builds and receives them:
    [errors.New(text)], and [fmt.Errorf] with a [%w] verb, which keeps the
    formatted message and the wrapped error. *)
Inductive error :=
| errorString (s : string)
| wrapError (msg : string) (err : error).

(** [err.Error()] *)
Definition Error (e : error) : string :=
  match e with
  | errorString s => s
  | wrapError msg _ => msg
  end.

(** [err.Unwrap()] *)
Definition Unwrap (e : error) : option error :=
  match e with
  | errorString _ => None
  | wrapError _ err => Some err
  end.

(** [errors.New(text)] *)
Definition errors_New (text : string) : error := errorString text.

(** [fmt.Errorf(prefix + "%w", err)] *)
Definition Errorf_w (prefix : string) (err : error) : error :=
  wrapError (prefix +:+ Error err) err.

(** [fmt.Errorf(prefix + "%w %s", err, s)] *)
Definition Errorf_w_s (prefix : string) (err : error) (s : string) : error :=
  wrapError (prefix +:+ Error err +:+ " " +:+ s) err.

(** A Go result pair [(T, error)] of which exactly one side is meaningful. *)
Inductive result (A : Type) :=
| Ok (a : A)
| Err (e : error).
Arguments Ok {A} a.
Arguments Err {A} e.

(** [strings.Contains(s, sub)], used to say that a message shows a payload. *)
Fixpoint contains (s sub : string) : bool :=
  if String.prefix sub s then true
  else match s with
       | EmptyString => false
       | String _ s' => contains s' sub
       end.

(* ================================================================== *)
(** * The value tree *)

(** A key of a decoded [map[interface{}]interface{}], by dynamic type:
    unsigned and signed 64-bit integers (as [Z]), text strings, booleans,
    and [KOther] for a key of any other type (a float, a byte string, ...),
    given by the text that [%v] prints for it, which is all that the
    conversion asks of a key. *)
Inductive key :=
| KUint64 (n : Z)
| KInt64 (n : Z)
| KString (s : string)
| KBool (b : bool)
| KOther (text : string).

(** A value of type [any] as the decoders hand it to the processor.

    - [VSlice] is [[]any];
    - [VMapAny] is [map[interface{}]interface{}]: its entries, listed in the
      order in which a [range] loop of the current run visits them.  Go
      leaves that order unspecified, so two runs over the same map may see
      any two permutations of the list;
    - [VMapStr] is [map[string]any];
    - the other constructors are the scalars, on which the type switch of
      [convertToStringKeyMap] falls through ([VFloat64] carries the 64 bits
      of the number). *)
#[local] Unset Elimination Schemes.
Inductive value :=
| VNil
| VBool (b : bool)
| VUint64 (n : Z)
| VInt64 (n : Z)
| VFloat64 (bits : Z)
| VString (s : string)
| VBytes (bs : bytes)
| VSlice (xs : list value)
| VMapAny (kvs : list (key * value))
| VMapStr (m : gmap string value).
#[local] Set Elimination Schemes.

(** Decimal rendering of an integer, as [%v] prints it. *)
Definition itoa (n : Z) : string := NilZero.string_of_int (Z.to_int n).

(** [fmt.Sprintf("%v", k)] on a map key. *)
Definition Sprintf_v (k : key) : string :=
  match k with
  | KUint64 n => itoa n
  | KInt64 n => itoa n
  | KString s => s
  | KBool true => "true"
  | KBool false => "false"
  | KOther text => text
  end.

(** [convertToStringKeyMap] (first variant, also used by the tests).

    - [map[interface{}]interface{}]: a fresh [map[string]any] receives
      [m[Sprintf("%v", k)] = convertToStringKeyMap(v)] for each entry in
      visiting order, a later assignment to the same text overwriting an
      earlier one;
    - [map[string]any]: a fresh map with the same keys and converted values;
    - [[]any]: [x[i] = convertToStringKeyMap(v)] for every index in turn,
      and the slice itself is returned;
    - anything else is returned as it is. *)
Fixpoint convertToStringKeyMap (data : value) : value :=
  match data with
  | VMapAny x =>
      VMapStr (fold_left
                 (λ m kv, <[Sprintf_v kv.1 := convertToStringKeyMap kv.2]> m)
                 x ∅)
  | VMapStr x => VMapStr (convertToStringKeyMap <$> x)
  | VSlice x => VSlice (map convertToStringKeyMap x)
  | _ => data
  end.

(** ** Predicates on value trees *)



(** No [map[interface{}]interface{}] of the tree has two keys that print as
    the same text. *)
Fixpoint collision_free (v : value) : bool :=
  match v with
  | VSlice xs => forallb collision_free xs
  | VMapAny kvs =>
      bool_decide (NoDup (map (λ kv, Sprintf_v kv.1) kvs))
      && forallb (λ kv, collision_free kv.2) kvs
  | VMapStr m => map_fold (λ _ x b, collision_free x && b) true m
  | _ => true
  end.

(** Two observations of one tree: the same tree up to the order in which the
    entries of its [map[interface{}]interface{}] nodes are visited. *)
#[local] Unset Elimination Schemes.
Inductive same_tree : value → value → Prop :=
| same_tree_refl v : same_tree v v
| same_tree_slice xs ys :
    Forall2 same_tree xs ys → same_tree (VSlice xs) (VSlice ys)
| same_tree_map_any x x' y :
    x ≡ₚ x' →
    Forall2 (λ a b, a.1 = b.1 ∧ same_tree a.2 b.2) x' y →
    same_tree (VMapAny x) (VMapAny y)
| same_tree_map_str m1 m2 :
    dom m1 = dom m2 →
    (∀ k a b, m1 !! k = Some a → m2 !! k = Some b → same_tree a b) →
    same_tree (VMapStr m1) (VMapStr m2).
#[local] Set Elimination Schemes.

(** Size of a tree, the measure of the induction principle below. *)
Fixpoint vsize (v : value) : nat :=
  match v with
  | VSlice xs => S (fold_right (λ x n, vsize x + n) 0 xs)
  | VMapAny kvs => S (fold_right (λ kv n, vsize kv.2 + n) 0 kvs)
  | VMapStr m => S (map_fold (λ _ x n, vsize x + n) 0 m)
  | _ => 1
  end.

(* ================================================================== *)
(** * What the processor uses from outside the repository *)

(** ** The host: [service.Message] *)

(** [msg.AsBytes()] reads the payload of a message and [msg.SetBytes(b)]
    replaces it; [SetBytes b msg] is the message after the call. *)
Class Host (Message : Type) := {
  AsBytes : Message → result bytes;
  SetBytes : bytes → Message → Message;
}.

(** ** [encoding/json] *)

Class JSONPkg := {
  json_Marshal : value → result bytes;
  json_Unmarshal : bytes → result value;
}.

(** ** The CBOR codec *)

(** The interface [cbor.EncMode]: [Marshal]. *)
Record EncMode := { Marshal : value → result bytes }.

(** The interface [cbor.DecMode]: [Unmarshal] decodes a whole payload, and
    [NewDecoder(bytes.NewReader(b)).Decode(&v)] decodes from a stream
    over it. *)
Record DecMode := {
  Unmarshal : bytes → result value;
  NewDecoder_Decode : bytes → result value;
}.

(** The option values that the source names.  A field that a struct literal
    does not mention keeps Go's zero value, [None] here. *)
Inductive ByteSliceLaterFormatMode := ByteSliceLaterFormatBase64.
Inductive StringMode := StringToByteString.
Inductive ByteArrayMode := ByteArrayToArray.
Inductive MapKeyByteStringMode := MapKeyByteStringAllowed.
Inductive ByteStringToStringMode := ByteStringToStringAllowed.
Inductive IndefLengthMode := IndefLengthAllowed.

(** The two arguments of [DefaultMapType] and [DefaultByteStringType]:
    [reflect.TypeOf] of a [map[string]any] and of a string. *)
Inductive reflect_Type := TypeOf_map_string_any | TypeOf_string.

Record EncOptions := {
  ByteSliceLaterFormat : option ByteSliceLaterFormatMode;
  String_ : option StringMode;
  ByteArray : option ByteArrayMode;
}.

Record DecOptions := {
  MapKeyByteString : option MapKeyByteStringMode;
  DefaultMapType : option reflect_Type;
  DefaultByteStringType : option reflect_Type;
  ByteStringToString : option ByteStringToStringMode;
  IndefLength : option IndefLengthMode;
}.

(** The library's preset [cbor.PreferredUnsortedEncOptions()] and its two
    mode constructors [EncOptions.EncMode()] and [DecOptions.DecMode()],
    which reject an invalid combination of options. *)
Class CBORPkg := {
  PreferredUnsortedEncOptions : EncOptions;
  EncOptions_EncMode : EncOptions → result EncMode;
  DecOptions_DecMode : DecOptions → result DecMode;
}.

(** ** The host: configuration *)

(** [service.ParsedConfig]: [conf.FieldString(name)]. *)
Record ParsedConfig := { FieldString : string → result string }.

(** What [service.NewStringEnumField(name, options...)] with its
    [Description] and [Default] holds. *)
Record StringEnumField := {
  field_name : string;
  field_options : list string;
  field_description : string;
  field_default : option string;
}.

(** What the calls on [service.NewConfigSpec()] accumulate; an example is
    its title, its summary and its configuration text. *)
Record ConfigSpec := {
  spec_stable : bool;
  spec_categories : list string;
  spec_summary : string;
  spec_description : string;
  spec_fields : list StringEnumField;
  spec_examples : list (string * string * string);
}.

(* ================================================================== *)
(** * The processor *)

(** The two closures that [strToOperator] can return.  Each captures the
    processor only, so a closure is represented by its label and applied to
    the processor when it is called. *)
Inductive Operator := OpToJSON | OpFromJSON.

(** [CBORProcessor] *)
Record CBORProcessor := {
  encMode : EncMode;
  decMode : DecMode;
  operator : Operator;
}.

(** [strToOperator].  Its processor argument is only captured by the closure
    that it returns. *)
Definition strToOperator (operatorStr : string) : result Operator :=
  if String.eqb operatorStr "to_json" then Ok OpToJSON
  else if String.eqb operatorStr "from_json" then Ok OpFromJSON
  else Err (errors_New "invalid operator type").

(** The constant [fieldOperator]. *)
Definition fieldOperator : string := "operator".

(** [getCBORConfigSpec], the same in both variants. *)
Definition getCBORConfigSpec : ConfigSpec := {|
  spec_stable := true;
  spec_categories := ["Parsing"; "Format"];
  spec_summary := "
Processes CBOR (Concise Binary Object Representation) data, providing decoding and re-encoding capabilities.
";
  spec_description := "
This processor allows you to manipulate CBOR data by decoding the input, displaying the decoded content, and re-encoding it with configurable options.

CBOR is a binary data format designed for small message size with the ability to support the seamless conversion of JSON data models.
This processor supports RFC 7049 and RFC 8949 compliant encoding and decoding of CBOR data.

You can configure various encoding options to control how specific data types are represented in the CBOR output.

## Operators

### `to_json`

Converts CBOR data into JSON format.

### `from_json`

Converts JSON data into CBOR format using the configured encoding options.
";
  spec_fields :=
    [ {| field_name := fieldOperator;
         field_options := ["to_json"; "from_json"];
         field_description := "The operator to execute, to_json|from_json";
         field_default := Some "to_json" |} ];
  spec_examples :=
    [ ("Convert CBOR to JSON", "
This example demonstrates how to convert CBOR data to JSON format.
", "
pipeline:
  processors:
    - cbor:
        operator: to_json
");
      ("Convert JSON to CBOR", "
This example shows how to convert JSON data to CBOR format with specific encoding options.
", "
pipeline:
  processors:
    - cbor:
        operator: from_json
") ];
|}.

(** ** First variant: preferred unsorted encoding, stream decoder, and key
    normalisation before the JSON encoder *)
Module Part000.
Section Impl.
Context {Message : Type} `{!Host Message} `{!JSONPkg} `{!CBORPkg}.

(** [NewProcessor] *)
Definition NewProcessor (operatorStr : string) : result CBORProcessor :=
  match strToOperator operatorStr with
  | Err err => Err err
  | Ok operator =>
      match EncOptions_EncMode PreferredUnsortedEncOptions with
      | Err err => Err (Errorf_w "failed to create CBOR encoder: " err)
      | Ok encMode =>
          let decOpts :=
            {| MapKeyByteString := Some MapKeyByteStringAllowed;
               DefaultMapType := None;
               DefaultByteStringType := None;
               ByteStringToString := None;
               IndefLength := None |} in
          match DecOptions_DecMode decOpts with
          | Err err => Err (Errorf_w "failed to create CBOR decoder: " err)
          | Ok decMode =>
              Ok {| encMode := encMode; decMode := decMode;
                    operator := operator |}
          end
      end
  end.

(** [newCBORToJSONOperator]: the returned error ([None] for [nil]) and the
    message after the call. *)
Definition newCBORToJSONOperator (cp : CBORProcessor) (msg : Message)
  : option error * Message :=
  match AsBytes msg with
  | Err err => (Some (Errorf_w "failed to get message bytes: " err), msg)
  | Ok bytesContent =>
      match NewDecoder_Decode (decMode cp) bytesContent with
      | Err err =>
          (Some (Errorf_w_s "failed to decode CBOR: " err
                   (string_of_list_byte bytesContent)), msg)
      | Ok decoded =>
          let stringKeyData := convertToStringKeyMap decoded in
          match json_Marshal stringKeyData with
          | Err err =>
              (Some (Errorf_w "failed to convert CBOR to JSON: " err), msg)
          | Ok jsonData => (None, SetBytes jsonData msg)
          end
      end
  end.

(** [newCBORFromJSONOperator] *)
Definition newCBORFromJSONOperator (cp : CBORProcessor) (msg : Message)
  : option error * Message :=
  match AsBytes msg with
  | Err err => (Some (Errorf_w "failed to get message bytes: " err), msg)
  | Ok bytesContent =>
      match json_Unmarshal bytesContent with
      | Err err => (Some (Errorf_w "failed to parse JSON: " err), msg)
      | Ok jsonData =>
          match Marshal (encMode cp) jsonData with
          | Err err =>
              (Some (Errorf_w "failed to encode JSON to CBOR: " err), msg)
          | Ok cborData => (None, SetBytes cborData msg)
          end
      end
  end.

(** Calling the closure stored in [cp.operator]. *)
Definition call_operator (cp : CBORProcessor) (msg : Message)
  : option error * Message :=
  match operator cp with
  | OpToJSON => newCBORToJSONOperator cp msg
  | OpFromJSON => newCBORFromJSONOperator cp msg
  end.

(** [Process]: the returned batch or error, and the message after the
    call. *)
Definition Process (cp : CBORProcessor) (m : Message)
  : result (list Message) * Message :=
  match call_operator cp m with
  | (Some err, m') => (Err err, m')
  | (None, m') => (Ok [m'], m')
  end.

(** The constructor that [init] registers under the name [cbor]. *)
Definition init_constructor (conf : ParsedConfig) : result CBORProcessor :=
  match FieldString conf fieldOperator with
  | Err err => Err err
  | Ok operatorStr => NewProcessor operatorStr
  end.

(** [Close] *)
Definition Close (cp : CBORProcessor) : option error := None.

End Impl.
End Part000.

(** ** Second variant: JSON-compatible codec options, whole-payload decoder,
    no key normalisation *)
Module Part001.
Section Impl.
Context {Message : Type} `{!Host Message} `{!JSONPkg} `{!CBORPkg}.

(** [NewProcessor] *)
Definition NewProcessor (operatorStr : string) : result CBORProcessor :=
  match strToOperator operatorStr with
  | Err err => Err err
  | Ok operator =>
      let encOpts :=
        {| ByteSliceLaterFormat := Some ByteSliceLaterFormatBase64;
           String_ := Some StringToByteString;
           ByteArray := Some ByteArrayToArray |} in
      match EncOptions_EncMode encOpts with
      | Err err => Err (Errorf_w "failed to create CBOR encoder: " err)
      | Ok encMode =>
          let decOpts :=
            {| MapKeyByteString := Some MapKeyByteStringAllowed;
               DefaultMapType := Some TypeOf_map_string_any;
               DefaultByteStringType := Some TypeOf_string;
               ByteStringToString := Some ByteStringToStringAllowed;
               IndefLength := Some IndefLengthAllowed |} in
          match DecOptions_DecMode decOpts with
          | Err err => Err (Errorf_w "failed to create CBOR decoder: " err)
          | Ok decMode =>
              Ok {| encMode := encMode; decMode := decMode;
                    operator := operator |}
          end
      end
  end.

(** [newCBORToJSONOperator] *)
Definition newCBORToJSONOperator (cp : CBORProcessor) (msg : Message)
  : option error * Message :=
  match AsBytes msg with
  | Err err => (Some (Errorf_w "failed to get message bytes: " err), msg)
  | Ok bytesContent =>
      match Unmarshal (decMode cp) bytesContent with
      | Err err =>
          (Some (Errorf_w_s "failed to decode CBOR: " err
                   (string_of_list_byte bytesContent)), msg)
      | Ok decoded =>
          match json_Marshal decoded with
          | Err err =>
              (Some (Errorf_w "failed to convert CBOR to JSON: " err), msg)
          | Ok jsonData => (None, SetBytes jsonData msg)
          end
      end
  end.

(** [newCBORFromJSONOperator] *)
Definition newCBORFromJSONOperator (cp : CBORProcessor) (msg : Message)
  : option error * Message :=
  match AsBytes msg with
  | Err err => (Some (Errorf_w "failed to get message bytes: " err), msg)
  | Ok bytesContent =>
      match json_Unmarshal bytesContent with
      | Err err => (Some (Errorf_w "failed to parse JSON: " err), msg)
      | Ok jsonData =>
          match Marshal (encMode cp) jsonData with
          | Err err =>
              (Some (Errorf_w "failed to encode JSON to CBOR: " err), msg)
          | Ok cborData => (None, SetBytes cborData msg)
          end
      end
  end.

(** Calling the closure stored in [cp.operator]. *)
Definition call_operator (cp : CBORProcessor) (msg : Message)
  : option error * Message :=
  match operator cp with
  | OpToJSON => newCBORToJSONOperator cp msg
  | OpFromJSON => newCBORFromJSONOperator cp msg
  end.

(** [Process] *)
Definition Process (cp : CBORProcessor) (m : Message)
  : result (list Message) * Message :=
  match call_operator cp m with
  | (Some err, m') => (Err err, m')
  | (None, m') => (Ok [m'], m')
  end.

(** The constructor that [init] registers under the name [cbor]. *)
Definition init_constructor (conf : ParsedConfig) : result CBORProcessor :=
  match FieldString conf fieldOperator with
  | Err err => Err err
  | Ok operatorStr => NewProcessor operatorStr
  end.

(** [Close] *)
Definition Close (cp : CBORProcessor) : option error := None.

End Impl.
End Part001.

(** ** Sample trees *)

(** One map with the integer key [1] and the text key ["1"], in the two
    orders in which a loop can visit its entries. *)
Definition collide_int_first : value :=
  VMapAny [(KUint64 1, VString "a"); (KString "1", VString "b")].

Definition collide_text_first : value :=
  VMapAny [(KString "1", VString "b"); (KUint64 1, VString "a")].

(** One map with the integer key [1] and the text key ["2"], in its two
    visiting orders. *)
Definition distinct_int_first : value :=
  VMapAny [(KUint64 1, VString "a"); (KString "2", VString "b")].

Definition distinct_text_first : value :=
  VMapAny [(KString "2", VString "b"); (KUint64 1, VString "a")].

(* ================================================================== *)
(** * A miniature implementation of the interfaces

    Used to run the operators on concrete payloads.  It knows the CBOR
    items and the JSON literals [null], [true] and [false] and nothing
    else: every other value is refused and every other payload rejected,
    a JSON payload with the message that [encoding/json] has for a
    document that ends too early, such as [{]. *)

(** A message that is its payload. *)
Record RawMessage := { payload : bytes }.

#[export] Instance raw_host : Host RawMessage := {|
  AsBytes m := Ok (payload m);
  SetBytes b _ := {| payload := b |};
|}.

Definition mini_json_Marshal (v : value) : result bytes :=
  match v with
  | VNil => Ok (list_byte_of_string "null")
  | VBool true => Ok (list_byte_of_string "true")
  | VBool false => Ok (list_byte_of_string "false")
  | _ => Err (errorString "json: unsupported type")
  end.

Definition mini_json_Unmarshal (b : bytes) : result value :=
  let s := string_of_list_byte b in
  if String.eqb s "null" then Ok VNil
  else if String.eqb s "true" then Ok (VBool true)
  else if String.eqb s "false" then Ok (VBool false)
  else Err (errorString "unexpected end of JSON input").

Definition mini_json : JSONPkg := {|
  json_Marshal := mini_json_Marshal;
  json_Unmarshal := mini_json_Unmarshal;
|}.

Definition mini_cbor_Marshal (v : value) : result bytes :=
  match v with
  | VNil => Ok [xf6]
  | VBool true => Ok [xf5]
  | VBool false => Ok [xf4]
  | _ => Err (errorString "cbor: unsupported type")
  end.

Definition mini_cbor_item (b : byte) : result value :=
  match b with
  | xf6 => Ok VNil
  | xf5 => Ok (VBool true)
  | xf4 => Ok (VBool false)
  | _ => Err (errorString "cbor: unsupported item")
  end.

(** The whole payload must be one item. *)
Definition mini_cbor_Unmarshal (b : bytes) : result value :=
  match b with
  | [] => Err (errorString "EOF")
  | [x] => mini_cbor_item x
  | _ :: _ :: _ => Err (errorString "cbor: extraneous data")
  end.

(** The stream decoder reads the first item and leaves the rest unread. *)
Definition mini_cbor_Decode (b : bytes) : result value :=
  match b with
  | [] => Err (errorString "EOF")
  | x :: _ => mini_cbor_item x
  end.

Definition mini_enc : EncMode := {| Marshal := mini_cbor_Marshal |}.

Definition mini_dec : DecMode := {|
  Unmarshal := mini_cbor_Unmarshal;
  NewDecoder_Decode := mini_cbor_Decode;
|}.

Definition mini_cbor : CBORPkg := {|
  PreferredUnsortedEncOptions :=
    {| ByteSliceLaterFormat := None; String_ := None; ByteArray := None |};
  EncOptions_EncMode _ := Ok mini_enc;
  DecOptions_DecMode _ := Ok mini_dec;
|}.

Definition mini_to_json : CBORProcessor :=
  {| encMode := mini_enc; decMode := mini_dec; operator := OpToJSON |}.

Definition mini_from_json : CBORProcessor :=
  {| encMode := mini_enc; decMode := mini_dec; operator := OpFromJSON |}.

(** ** Sample messages *)

(** The payload [{]: neither a CBOR item of the miniature codec nor JSON. *)
Definition brace_message : RawMessage := {| payload := [x7b] |}.

(** The JSON text [true]. *)
Definition true_message : RawMessage :=
  {| payload := list_byte_of_string "true" |}.

(** The CBOR item [true]. *)
Definition cbor_true_message : RawMessage := {| payload := [xf5] |}.

(* ================================================================== *)
(** * Further notions on value trees *)

(** The tree has no [map[interface{}]interface{}] node. *)
Fixpoint no_map_any (v : value) : bool :=
  match v with
  | VSlice xs => forallb no_map_any xs
  | VMapAny _ => false
  | VMapStr m => map_fold (λ _ x b, no_map_any x && b) true m
  | _ => true
  end.


(** The keys of a map as [%v] prints them. *)
Definition printed_keys (x : list (key * value)) : list string :=
  (λ kv, Sprintf_v kv.1) <$> x.

(** Two keys of the same dynamic type, for the types whose values the model
    tells apart. *)
Definition same_key_type (k1 k2 : key) : bool :=
  match k1, k2 with
  | KUint64 _, KUint64 _ => true
  | KInt64 _, KInt64 _ => true
  | KString _, KString _ => true
  | KBool _, KBool _ => true
  | _, _ => false
  end.

(** ** More samples *)


(** A configuration whose [operator] field reads [from_json], and one in
    which the field is missing. *)
Definition from_json_conf : ParsedConfig :=
  {| FieldString name :=
       if String.eqb name "operator" then Ok "from_json"
       else Err (errorString "field not found") |}.

Definition empty_conf : ParsedConfig :=
  {| FieldString _ := Err (errorString "field not found") |}.

(** A codec that accepts no encoder options, and one that accepts the
    encoder options but no decoder options. *)
Definition no_encoder_cbor : CBORPkg := {|
  PreferredUnsortedEncOptions :=
    {| ByteSliceLaterFormat := None; String_ := None; ByteArray := None |};
  EncOptions_EncMode _ := Err (errorString "cbor: invalid option");
  DecOptions_DecMode _ := Ok mini_dec;
|}.

Definition no_decoder_cbor : CBORPkg := {|
  PreferredUnsortedEncOptions :=
    {| ByteSliceLaterFormat := None; String_ := None; ByteArray := None |};
  EncOptions_EncMode _ := Ok mini_enc;
  DecOptions_DecMode _ := Err (errorString "cbor: invalid option");
|}.

(** ** Proof automation *)

(** Splitting an operator along its early returns. *)
Ltac split_operator :=
  repeat match goal with
    | |- context [match ?r with Ok _ => _ | Err _ => _ end] =>
        destruct r eqn:?
    end.

(* ================================================================== *)
(** * Facts about folds, maps and trees *)

Lemma map_fold_andb_true {A} (f : A → bool) (m : gmap string A) :
  map_fold (λ _ x b, f x && b) true m = true
  ↔ map_Forall (λ _ x, f x = true) m.
Proof.
  apply (map_fold_weak_ind
           (λ r m, r = true ↔ map_Forall (λ _ x, f x = true) m)).
  - split; [intros _; apply map_Forall_empty | done].
  - intros i x m' r Hi IH.
    rewrite andb_true_iff, map_Forall_insert by done.
    by rewrite IH.
Qed.

Lemma vsize_slice_elem x xs :
  x ∈ xs → vsize x < vsize (VSlice xs).
Proof.
  simpl. induction 1 as [x xs|x y xs _ IH]; simpl; lia.
Qed.

Lemma vsize_map_any_elem (kv : key * value) kvs :
  kv ∈ kvs → vsize kv.2 < vsize (VMapAny kvs).
Proof.
  simpl. induction 1 as [kv kvs|kv y kvs _ IH]; simpl; lia.
Qed.

Lemma vsize_map_str_elem (m : gmap string value) k x :
  m !! k = Some x → vsize x < vsize (VMapStr m).
Proof.
  intros Hk. simpl.
  rewrite (map_fold_delete_L _ _ k x m); [lia| |done].
  intros; lia.
Qed.

(** Induction on value trees: the hypothesis is available for every element
    of a slice and every value stored in a map. *)
Lemma value_ind (P : value → Prop) :
  P VNil →
  (∀ b, P (VBool b)) →
  (∀ n, P (VUint64 n)) →
  (∀ n, P (VInt64 n)) →
  (∀ bits, P (VFloat64 bits)) →
  (∀ s, P (VString s)) →
  (∀ bs, P (VBytes bs)) →
  (∀ xs, Forall P xs → P (VSlice xs)) →
  (∀ kvs, Forall (λ kv, P kv.2) kvs → P (VMapAny kvs)) →
  (∀ m, map_Forall (λ _, P) m → P (VMapStr m)) →
  ∀ v, P v.
Proof.
  intros Hnil Hbool Hu Hi Hf Hs Hb Hslice Hany Hstr v.
  remember (vsize v) as n eqn:Hn. revert v Hn.
  induction n as [n IH] using lt_wf_ind. intros v ->.
  destruct v as [| | | | | | |xs|kvs|m]; auto.
  - apply Hslice, Forall_forall. intros x Hx.
    eapply IH; [by apply vsize_slice_elem|done].
  - apply Hany, Forall_forall. intros kv Hkv.
    eapply IH; [by apply vsize_map_any_elem|done].
  - apply Hstr. intros k x Hk.
    eapply IH; [by eapply vsize_map_str_elem|done].
Qed.


(** The loop as a [list_to_map] of the entries, last one first. *)
Lemma range_insert_list_to_map {A B} (f : A → string) (g : A → B)
    (x : list A) :
  fold_left (λ m kv, <[f kv := g kv]> m) x (∅ : gmap string B)
  = list_to_map (reverse ((λ kv, (f kv, g kv)) <$> x)).
Proof.
  assert (∀ m0 : gmap string B,
    fold_left (λ m kv, <[f kv := g kv]> m) x m0
    = list_to_map (reverse ((λ kv, (f kv, g kv)) <$> x)) ∪ m0) as H.
  { induction x as [|kv x IH]; intros m0; simpl.
    - by rewrite (left_id_L ∅ (∪)).
    - rewrite IH, reverse_cons, list_to_map_app. simpl.
      rewrite <-(assoc_L (∪)). f_equal.
      by rewrite insert_empty, <-insert_union_singleton_l. }
  by rewrite H, (right_id_L ∅ (∪)).
Qed.

Lemma prefix_refl s : String.prefix s s = true.
Proof.
  induction s as [|c s IH]; simpl; [done|].
  by destruct (Ascii.ascii_dec c c).
Qed.


Lemma contains_unfold s sub :
  contains s sub =
  if String.prefix sub s then true
  else match s with
       | EmptyString => false
       | String _ s' => contains s' sub
       end.
Proof. by destruct s. Qed.

Lemma contains_suffix pre sub : contains (pre +:+ sub) sub = true.
Proof.
  induction pre as [|c pre IH].
  - by rewrite contains_unfold, prefix_refl.
  - rewrite contains_unfold.
    change (String c pre +:+ sub) with (String c (pre +:+ sub)).
    by destruct (String.prefix _ _).
Qed.

(* ================================================================== *)
(** * Key normalisation *)


(** C8. On a sequence node the conversion keeps the length and the order:
    element [i] of the result is the conversion of element [i] of the
    input, for every index [i]. *)
Theorem convertToStringKeyMap_slice_order (xs : list value) :
  ∃ ys, convertToStringKeyMap (VSlice xs) = VSlice ys
        ∧ length ys = length xs
        ∧ ∀ i, ys !! i = convertToStringKeyMap <$> xs !! i.
Proof.
  exists (map convertToStringKeyMap xs). split_and!; [done|..].
  - apply length_map.
  - intros i. change (map convertToStringKeyMap xs)
      with (convertToStringKeyMap <$> xs).
    apply list_lookup_fmap.
Qed.

(** C3, as stated, fails: the map with the integer key [1] and the text key
    ["1"] is one tree whichever entry the loop visits first, yet the two
    visiting orders give two different results. *)
Lemma key_collision_depends_on_visiting_order :
  same_tree collide_int_first collide_text_first
  ∧ convertToStringKeyMap collide_int_first
    = VMapStr {[ "1" := VString "b" ]}
  ∧ convertToStringKeyMap collide_text_first
    = VMapStr {[ "1" := VString "a" ]}
  ∧ convertToStringKeyMap collide_int_first
    ≠ convertToStringKeyMap collide_text_first.
Proof.
  split_and!.
  - eapply same_tree_map_any; [apply Permutation_swap|].
    repeat constructor.
  - vm_compute. reflexivity.
  - vm_compute. reflexivity.
  - intros H. vm_compute in H. discriminate H.
Qed.

Lemma convert_entries_same (x y : list (key * value)) :
  Forall (λ kv, ∀ t2, same_tree kv.2 t2 → collision_free kv.2 = true →
                convertToStringKeyMap kv.2 = convertToStringKeyMap t2) x →
  forallb (λ kv, collision_free kv.2) x = true →
  Forall2 (λ a b, a.1 = b.1 ∧ same_tree a.2 b.2) x y →
  (λ kv, (Sprintf_v kv.1, convertToStringKeyMap kv.2)) <$> x
  = (λ kv, (Sprintf_v kv.1, convertToStringKeyMap kv.2)) <$> y.
Proof.
  intros IH Hcf H. induction H as [|a b x y [Hk Hv] _ IHF]; [done|].
  apply Forall_cons in IH as [IHa IH].
  simpl in Hcf. apply andb_true_iff in Hcf as [Hcfa Hcf].
  rewrite !fmap_cons. f_equal; [|by apply IHF].
  by rewrite Hk, (IHa _ Hv Hcfa).
Qed.

Lemma convert_elements_same (xs ys : list value) :
  Forall (λ t1, ∀ t2, same_tree t1 t2 → collision_free t1 = true →
                convertToStringKeyMap t1 = convertToStringKeyMap t2) xs →
  forallb collision_free xs = true →
  Forall2 same_tree xs ys →
  map convertToStringKeyMap xs = map convertToStringKeyMap ys.
Proof.
  intros IH Hcf H. induction H as [|a b xs ys Hab _ IHF]; [done|].
  apply Forall_cons in IH as [IHa IH].
  simpl in Hcf. apply andb_true_iff in Hcf as [Hcfa Hcf].
  simpl. f_equal; [by apply IHa|by apply IHF].
Qed.

(** C3, amended. When no map of the tree has two keys that print as the
    same text, the result does not depend on the order in which the entries
    of the maps are visited: two observations of the same tree are converted
    to identical trees. *)
Theorem convertToStringKeyMap_deterministic (t1 t2 : value) :
  same_tree t1 t2 →
  collision_free t1 = true →
  convertToStringKeyMap t1 = convertToStringKeyMap t2.
Proof.
  revert t2.
  induction t1 as [| | | | | | |xs IH|x IH|m1 IH] using value_ind;
    intros t2 Hsame Hcf; inversion Hsame; subst; try done.
  - (* slices *)
    simpl in *. f_equal. by apply convert_elements_same.
  - (* map[interface{}]interface{} *)
    rename x' into z. simpl in *. f_equal.
    apply andb_true_iff in Hcf as [Hnd Hcf].
    apply bool_decide_eq_true in Hnd.
    match goal with H : x ≡ₚ z |- _ => rename H into Hperm end.
    match goal with H : Forall2 _ z _ |- _ => rename H into HF end.
    rewrite !(range_insert_list_to_map (λ kv, Sprintf_v kv.1)
                (λ kv, convertToStringKeyMap kv.2)).
    assert ((λ kv : key * value, (Sprintf_v kv.1, convertToStringKeyMap kv.2)) <$> z
            = (λ kv, (Sprintf_v kv.1, convertToStringKeyMap kv.2)) <$> y) as Hzy.
    { apply convert_entries_same; [| |done].
      - by rewrite <-Hperm.
      - apply forallb_forall. intros kv Hkv.
        rewrite forallb_forall in Hcf. apply Hcf.
        apply list_elem_of_In. rewrite Hperm. by apply list_elem_of_In. }
    rewrite <-Hzy. apply list_to_map_proper.
    + rewrite fmap_reverse, reverse_Permutation.
      by rewrite <-list_fmap_compose.
    + by rewrite !reverse_Permutation, Hperm.
  - (* map[string]any *)
    simpl in *. f_equal. apply map_eq. intros k.
    rewrite !lookup_fmap.
    match goal with H : dom m1 = dom _ |- _ => rename H into Hdom end.
    match goal with H : ∀ k a b, m1 !! k = Some a → _ |- _ =>
      rename H into Hval end.
    apply map_fold_andb_true in Hcf.
    destruct (m1 !! k) as [a|] eqn:Ha.
    + assert (is_Some (m2 !! k)) as [b Hb].
      { apply elem_of_dom. rewrite <-Hdom. by apply elem_of_dom. }
      rewrite Hb. simpl. f_equal.
      apply (IH k a Ha); [by eapply Hval|by apply (Hcf k)].
    + assert (m2 !! k = None) as ->; [|done].
      apply not_elem_of_dom. rewrite <-Hdom. by apply not_elem_of_dom.
Qed.

Lemma convertToStringKeyMap_deterministic_witness :
  convertToStringKeyMap distinct_int_first
  = convertToStringKeyMap distinct_text_first.
Proof.
  apply convertToStringKeyMap_deterministic.
  - eapply same_tree_map_any; [apply Permutation_swap|].
    repeat constructor.
  - vm_compute. reflexivity.
Defined.

(* ================================================================== *)
(** * The operators *)

Section Operators.
Context {Message : Type} `{!Host Message} `{!JSONPkg}.

(** ** Each failing step, and what the operator returns there *)


Lemma to_json_001_decode_error (cp : CBORProcessor) (msg : Message) b derr :
  AsBytes msg = Ok b →
  Unmarshal (decMode cp) b = Err derr →
  Part001.newCBORToJSONOperator cp msg
  = (Some (Errorf_w_s "failed to decode CBOR: " derr (string_of_list_byte b)),
     msg).
Proof. intros Hb Hd. unfold Part001.newCBORToJSONOperator. by rewrite Hb, Hd. Qed.


Lemma from_json_001_parse_error (cp : CBORProcessor) (msg : Message) b perr :
  AsBytes msg = Ok b →
  json_Unmarshal b = Err perr →
  Part001.newCBORFromJSONOperator cp msg
  = (Some (Errorf_w "failed to parse JSON: " perr), msg).
Proof. intros Hb Hp. unfold Part001.newCBORFromJSONOperator. by rewrite Hb, Hp. Qed.


Lemma to_json_000_error_keeps_message (cp : CBORProcessor) (msg : Message) e msg' :
  Part000.newCBORToJSONOperator cp msg = (Some e, msg') → msg' = msg.
Proof.
  unfold Part000.newCBORToJSONOperator. split_operator; congruence.
Qed.

Lemma from_json_000_error_keeps_message (cp : CBORProcessor) (msg : Message) e msg' :
  Part000.newCBORFromJSONOperator cp msg = (Some e, msg') → msg' = msg.
Proof.
  unfold Part000.newCBORFromJSONOperator. split_operator; congruence.
Qed.

Lemma to_json_001_error_keeps_message (cp : CBORProcessor) (msg : Message) e msg' :
  Part001.newCBORToJSONOperator cp msg = (Some e, msg') → msg' = msg.
Proof.
  unfold Part001.newCBORToJSONOperator. split_operator; congruence.
Qed.

Lemma from_json_001_error_keeps_message (cp : CBORProcessor) (msg : Message) e msg' :
  Part001.newCBORFromJSONOperator cp msg = (Some e, msg') → msg' = msg.
Proof.
  unfold Part001.newCBORFromJSONOperator. split_operator; congruence.
Qed.

End Operators.

(** What each operator does when it returns no error: every step has
    succeeded and the payload is the output of the last one. *)
Section OperatorSuccess.
Context {Message : Type} `{!Host Message} `{!JSONPkg}.

Lemma to_json_000_success (cp : CBORProcessor) (msg msg' : Message) :
  Part000.newCBORToJSONOperator cp msg = (None, msg') →
  ∃ b decoded jsonData,
    AsBytes msg = Ok b
    ∧ NewDecoder_Decode (decMode cp) b = Ok decoded
    ∧ json_Marshal (convertToStringKeyMap decoded) = Ok jsonData
    ∧ msg' = SetBytes jsonData msg.
Proof.
  unfold Part000.newCBORToJSONOperator.
  destruct (AsBytes msg) as [b|] eqn:Hb; [|done].
  destruct (NewDecoder_Decode _ b) as [decoded|] eqn:Hd; [|done].
  destruct (json_Marshal _) as [jsonData|] eqn:Hj; [|done].
  intros [= <-]. by exists b, decoded, jsonData.
Qed.

Lemma to_json_001_success (cp : CBORProcessor) (msg msg' : Message) :
  Part001.newCBORToJSONOperator cp msg = (None, msg') →
  ∃ b decoded jsonData,
    AsBytes msg = Ok b
    ∧ Unmarshal (decMode cp) b = Ok decoded
    ∧ json_Marshal decoded = Ok jsonData
    ∧ msg' = SetBytes jsonData msg.
Proof.
  unfold Part001.newCBORToJSONOperator.
  destruct (AsBytes msg) as [b|] eqn:Hb; [|done].
  destruct (Unmarshal _ b) as [decoded|] eqn:Hd; [|done].
  destruct (json_Marshal _) as [jsonData|] eqn:Hj; [|done].
  intros [= <-]. by exists b, decoded, jsonData.
Qed.

Lemma from_json_000_success (cp : CBORProcessor) (msg msg' : Message) :
  Part000.newCBORFromJSONOperator cp msg = (None, msg') →
  ∃ b jsonData cborData,
    AsBytes msg = Ok b
    ∧ json_Unmarshal b = Ok jsonData
    ∧ Marshal (encMode cp) jsonData = Ok cborData
    ∧ msg' = SetBytes cborData msg.
Proof.
  unfold Part000.newCBORFromJSONOperator.
  destruct (AsBytes msg) as [b|] eqn:Hb; [|done].
  destruct (json_Unmarshal b) as [jsonData|] eqn:Hp; [|done].
  destruct (Marshal _ _) as [cborData|] eqn:Hm; [|done].
  intros [= <-]. by exists b, jsonData, cborData.
Qed.

Lemma from_json_001_success (cp : CBORProcessor) (msg msg' : Message) :
  Part001.newCBORFromJSONOperator cp msg = (None, msg') →
  ∃ b jsonData cborData,
    AsBytes msg = Ok b
    ∧ json_Unmarshal b = Ok jsonData
    ∧ Marshal (encMode cp) jsonData = Ok cborData
    ∧ msg' = SetBytes cborData msg.
Proof.
  unfold Part001.newCBORFromJSONOperator.
  destruct (AsBytes msg) as [b|] eqn:Hb; [|done].
  destruct (json_Unmarshal b) as [jsonData|] eqn:Hp; [|done].
  destruct (Marshal _ _) as [cborData|] eqn:Hm; [|done].
  intros [= <-]. by exists b, jsonData, cborData.
Qed.

End OperatorSuccess.

(* ================================================================== *)
(** * Error reports *)


Section ErrorReports.
Context {Message : Type} `{!Host Message} `{!JSONPkg}.


(** C5. A payload that the decoder of the second variant rejects makes its
    [to_json] operator return an error, and a payload that the JSON parser
    rejects makes its [from_json] operator return an error.  In both cases
    the message is left as it was, so no output is produced, and [Process]
    returns the error and no batch.  (The operators are total functions:
    there is no input on which they fail to return.) *)
Theorem invalid_input_returns_error (cp : CBORProcessor) (msg : Message)
    (b : bytes) :
  AsBytes msg = Ok b →
  (∀ derr, Unmarshal (decMode cp) b = Err derr →
     ∃ e, Part001.newCBORToJSONOperator cp msg = (Some e, msg)
          ∧ (operator cp = OpToJSON → Part001.Process cp msg = (Err e, msg)))
  ∧ (∀ perr, json_Unmarshal b = Err perr →
     ∃ e, Part001.newCBORFromJSONOperator cp msg = (Some e, msg)
          ∧ (operator cp = OpFromJSON →
             Part001.Process cp msg = (Err e, msg))).
Proof.
  intros Hb. split.
  - intros derr Hd. eexists. split.
    + by eapply to_json_001_decode_error.
    + intros Hop. unfold Part001.Process, Part001.call_operator.
      by rewrite Hop, (to_json_001_decode_error _ _ _ _ Hb Hd).
  - intros perr Hp. eexists. split.
    + by eapply from_json_001_parse_error.
    + intros Hop. unfold Part001.Process, Part001.call_operator.
      by rewrite Hop, (from_json_001_parse_error _ _ _ _ Hb Hp).
Qed.

(** C7. Once the JSON parser has produced a value, the [from_json] operator
    (both variants) hands that very value to the encoder: what it returns
    is the outcome of [Marshal] on the parsed value. *)
Theorem from_json_encodes_parsed_value (cp : CBORProcessor) (msg : Message)
    (b : bytes) (jsonData : value) :
  AsBytes msg = Ok b →
  json_Unmarshal b = Ok jsonData →
  let outcome :=
    match Marshal (encMode cp) jsonData with
    | Err err => (Some (Errorf_w "failed to encode JSON to CBOR: " err), msg)
    | Ok cborData => (None, SetBytes cborData msg)
    end in
  Part000.newCBORFromJSONOperator cp msg = outcome
  ∧ Part001.newCBORFromJSONOperator cp msg = outcome.
Proof.
  intros Hb Hp. simpl.
  unfold Part000.newCBORFromJSONOperator, Part001.newCBORFromJSONOperator.
  by rewrite Hb, Hp.
Qed.

(** C10. Whichever operator the processor runs, in either variant, an
    error leaves the message as it was; and when no error is returned,
    reading, decoding, normalising and encoding have all succeeded and the
    payload is the encoder's output. *)
Theorem error_leaves_payload (cp : CBORProcessor) (msg : Message) :
  (∀ e msg', Part000.call_operator cp msg = (Some e, msg') → msg' = msg)
  ∧ (∀ e msg', Part001.call_operator cp msg = (Some e, msg') → msg' = msg)
  ∧ (∀ msg', Part000.newCBORToJSONOperator cp msg = (None, msg') →
       ∃ b decoded jsonData,
         AsBytes msg = Ok b
         ∧ NewDecoder_Decode (decMode cp) b = Ok decoded
         ∧ json_Marshal (convertToStringKeyMap decoded) = Ok jsonData
         ∧ msg' = SetBytes jsonData msg)
  ∧ (∀ msg', Part001.newCBORToJSONOperator cp msg = (None, msg') →
       ∃ b decoded jsonData,
         AsBytes msg = Ok b
         ∧ Unmarshal (decMode cp) b = Ok decoded
         ∧ json_Marshal decoded = Ok jsonData
         ∧ msg' = SetBytes jsonData msg)
  ∧ (∀ msg', Part000.newCBORFromJSONOperator cp msg = (None, msg')
             ∨ Part001.newCBORFromJSONOperator cp msg = (None, msg') →
       ∃ b jsonData cborData,
         AsBytes msg = Ok b
         ∧ json_Unmarshal b = Ok jsonData
         ∧ Marshal (encMode cp) jsonData = Ok cborData
         ∧ msg' = SetBytes cborData msg).
Proof.
  split_and!.
  - intros e msg'. unfold Part000.call_operator.
    destruct (operator cp);
      eauto using to_json_000_error_keeps_message,
        from_json_000_error_keeps_message.
  - intros e msg'. unfold Part001.call_operator.
    destruct (operator cp);
      eauto using to_json_001_error_keeps_message,
        from_json_001_error_keeps_message.
  - apply to_json_000_success.
  - apply to_json_001_success.
  - intros msg' [Hop|Hop];
      [by apply from_json_000_success|by apply from_json_001_success].
Qed.

End ErrorReports.


Lemma invalid_input_returns_error_witness :
  (∃ e, @Part001.Process RawMessage raw_host mini_json
          mini_to_json brace_message = (Err e, brace_message))
  ∧ (∃ e, @Part001.Process RawMessage raw_host mini_json
            mini_from_json brace_message = (Err e, brace_message)).
Proof.
  split.
  - destruct (@invalid_input_returns_error RawMessage raw_host mini_json
                mini_to_json brace_message [x7b] eq_refl) as [H _].
    destruct (H _ eq_refl) as (e & _ & He). exists e. by apply He.
  - destruct (@invalid_input_returns_error RawMessage raw_host mini_json
                mini_from_json brace_message [x7b] eq_refl) as [_ H].
    destruct (H _ eq_refl) as (e & _ & He). exists e. by apply He.
Defined.

Lemma from_json_encodes_parsed_value_witness :
  @Part000.newCBORFromJSONOperator RawMessage raw_host mini_json
    mini_from_json true_message = (None, cbor_true_message)
  ∧ @Part001.newCBORFromJSONOperator RawMessage raw_host mini_json
      mini_from_json true_message = (None, cbor_true_message).
Proof.
  exact (@from_json_encodes_parsed_value RawMessage raw_host mini_json
           mini_from_json true_message (list_byte_of_string "true")
           (VBool true) eq_refl eq_refl).
Defined.

Lemma error_leaves_payload_witness :
  snd (@Part000.call_operator RawMessage raw_host mini_json
         mini_to_json brace_message) = brace_message
  ∧ ∃ b decoded jsonData,
      AsBytes cbor_true_message = Ok b
      ∧ NewDecoder_Decode mini_dec b = Ok decoded
      ∧ @json_Marshal mini_json (convertToStringKeyMap decoded) = Ok jsonData
      ∧ true_message = SetBytes jsonData cbor_true_message.
Proof.
  split.
  - destruct (@error_leaves_payload RawMessage raw_host mini_json
                mini_to_json brace_message) as (H & _).
    exact (H _ _ eq_refl).
  - destruct (@error_leaves_payload RawMessage raw_host mini_json
                mini_to_json cbor_true_message) as (_ & _ & H & _).
    exact (H _ eq_refl).
Defined.

(* ================================================================== *)
(** * Construction *)

Section Construction.
Context {Message : Type} `{!Host Message} `{!JSONPkg} `{!CBORPkg}.

Lemma strToOperator_cases (operatorStr : string) :
  (operatorStr = "to_json" ∧ strToOperator operatorStr = Ok OpToJSON)
  ∨ (operatorStr = "from_json" ∧ strToOperator operatorStr = Ok OpFromJSON)
  ∨ (operatorStr ≠ "to_json" ∧ operatorStr ≠ "from_json"
     ∧ strToOperator operatorStr = Err (errors_New "invalid operator type")).
Proof.
  unfold strToOperator.
  destruct (String.eqb_spec operatorStr "to_json") as [->|Hto]; [by left|].
  destruct (String.eqb_spec operatorStr "from_json") as [->|Hfrom];
    [by right; left|by right; right].
Qed.

(** C6. For every operator string other than ["to_json"] and
    ["from_json"], [NewProcessor] (either variant) returns the error
    ["invalid operator type"] and no processor.  A processor that
    [NewProcessor] does return was asked for one of the two names and runs
    the operator of that name on every message.  And for each of the two
    names, once the codec has accepted the encoder and decoder options,
    [NewProcessor] returns the processor holding the two modes and that
    operator. *)
Theorem NewProcessor_operator_selection (operatorStr : string) :
  (operatorStr ≠ "to_json" → operatorStr ≠ "from_json" →
     Part000.NewProcessor operatorStr
     = Err (errors_New "invalid operator type")
     ∧ Part001.NewProcessor operatorStr
       = Err (errors_New "invalid operator type"))
  ∧ (∀ p, Part000.NewProcessor operatorStr = Ok p →
       (operatorStr = "to_json"
        ∧ ∀ m : Message,
            Part000.call_operator p m = Part000.newCBORToJSONOperator p m)
       ∨ (operatorStr = "from_json"
          ∧ ∀ m : Message,
              Part000.call_operator p m
              = Part000.newCBORFromJSONOperator p m))
  ∧ (∀ em dm,
       EncOptions_EncMode PreferredUnsortedEncOptions = Ok em →
       DecOptions_DecMode
         {| MapKeyByteString := Some MapKeyByteStringAllowed;
            DefaultMapType := None;
            DefaultByteStringType := None;
            ByteStringToString := None;
            IndefLength := None |} = Ok dm →
       Part000.NewProcessor "to_json"
       = Ok {| encMode := em; decMode := dm; operator := OpToJSON |}
       ∧ Part000.NewProcessor "from_json"
         = Ok {| encMode := em; decMode := dm; operator := OpFromJSON |}).
Proof.
  split_and!.
  - intros Hto Hfrom. unfold Part000.NewProcessor, Part001.NewProcessor.
    destruct (strToOperator_cases operatorStr)
      as [[? _]|[[? _]|(_ & _ & ->)]]; done.
  - intros p. unfold Part000.NewProcessor.
    destruct (strToOperator_cases operatorStr)
      as [[-> ->]|[[-> ->]|(_ & _ & ->)]]; [| |done].
    + destruct (EncOptions_EncMode _); [|done].
      destruct (DecOptions_DecMode _); [|done].
      intros [= <-]. by left.
    + destruct (EncOptions_EncMode _); [|done].
      destruct (DecOptions_DecMode _); [|done].
      intros [= <-]. by right.
  - intros em dm Hem Hdm. unfold Part000.NewProcessor.
    by rewrite Hem, Hdm.
Qed.

End Construction.

Lemma NewProcessor_operator_selection_witness :
  @Part000.NewProcessor mini_cbor "to_yaml"
  = Err (errors_New "invalid operator type")
  ∧ @Part000.NewProcessor mini_cbor "to_json" = Ok mini_to_json
  ∧ @Part000.NewProcessor mini_cbor "from_json" = Ok mini_from_json.
Proof.
  destruct (@NewProcessor_operator_selection RawMessage raw_host mini_json
              mini_cbor "to_yaml") as (Hbad & _ & Hgood).
  split.
  - apply Hbad; discriminate.
  - exact (Hgood mini_enc mini_dec eq_refl eq_refl).
Defined.

(* ================================================================== *)
(** * Further properties of the key normalisation *)


Lemma convert_without_map_any (v : value) :
  no_map_any v = true → convertToStringKeyMap v = v.
Proof.
  induction v as [| | | | | | |xs IH|kvs IH|m IH] using value_ind;
    simpl; try done.
  - intros Hxs. f_equal.
    induction IH as [|x xs Hx _ IHxs]; [done|].
    simpl in Hxs. apply andb_true_iff in Hxs as [Hx' Hxs].
    simpl. by rewrite Hx, IHxs.
  - intros Hm. apply map_fold_andb_true in Hm.
    f_equal. apply map_eq. intros k. rewrite lookup_fmap.
    destruct (m !! k) as [x|] eqn:Hk; simpl; [|done].
    f_equal. apply (IH k x Hk). by apply (Hm k).
Qed.



Lemma range_insert_last {A B} (f : A → string) (g : A → B)
    (x : list A) (m0 : gmap string B) s :
  fold_left (λ m kv, <[f kv := g kv]> m) x m0 !! s
  = match last (filter (λ kv, f kv = s) x) with
    | Some kv => Some (g kv)
    | None => m0 !! s
    end.
Proof.
  induction x as [|kv x IH] using rev_ind; [done|].
  rewrite fold_left_app, filter_app. simpl.
  destruct (decide (f kv = s)) as [<-|Hne].
  - rewrite lookup_insert_eq, filter_cons_True by done.
    by rewrite filter_nil, last_snoc.
  - rewrite lookup_insert_ne, filter_cons_False by done.
    by rewrite filter_nil, app_nil_r.
Qed.

(** X3. Last write wins. In the map built from a
    [map[interface{}]interface{}], the text [s] is bound to the conversion
    of the value of the last visited entry whose key prints as [s], and is
    unbound when no key prints as [s]. *)
Theorem convertToStringKeyMap_last_write_wins (x : list (key * value))
    (s : string) :
  ∃ m, convertToStringKeyMap (VMapAny x) = VMapStr m
       ∧ m !! s = (λ kv, convertToStringKeyMap kv.2)
                  <$> last (filter (λ kv, Sprintf_v kv.1 = s) x).
Proof.
  eexists. split; [done|].
  rewrite (range_insert_last (λ kv, Sprintf_v kv.1)
             (λ kv, convertToStringKeyMap kv.2)).
  by destruct (last _).
Qed.

Lemma size_list_to_set_NoDup (l : list string) :
  size (list_to_set l : gset string) ≤ length l
  ∧ (size (list_to_set l : gset string) = length l ↔ NoDup l).
Proof.
  induction l as [|a l [IHle IHeq]]; simpl.
  - split; [done|]. split; [intros _; constructor|done].
  - destruct (decide (a ∈ l)) as [Hin|Hout].
    + assert ({[a]} ∪ list_to_set l = (list_to_set l : gset string)) as ->.
      { apply subseteq_union_1_L, singleton_subseteq_l.
        by apply elem_of_list_to_set. }
      split; [lia|]. split; [lia|].
      intros [? _]%NoDup_cons. done.
    + rewrite size_union, size_singleton.
      2:{ apply disjoint_singleton_l. by rewrite elem_of_list_to_set. }
      split; [lia|]. rewrite NoDup_cons. split.
      * intros H. split; [done|]. apply IHeq. lia.
      * intros [_ H]. apply IHeq in H. lia.
Qed.

Lemma convert_map_any_dom (x : list (key * value)) :
  dom (fold_left
         (λ m kv, <[Sprintf_v kv.1 := convertToStringKeyMap kv.2]> m) x
         (∅ : gmap string value))
  = list_to_set (printed_keys x).
Proof.
  rewrite (range_insert_list_to_map (λ kv, Sprintf_v kv.1)
             (λ kv, convertToStringKeyMap kv.2)).
  rewrite dom_list_to_map_L, fmap_reverse, <-list_fmap_compose.
  apply set_eq. intros s.
  by rewrite !elem_of_list_to_set, elem_of_reverse.
Qed.

(** X4. The keys of the map built from a [map[interface{}]interface{}] are
    exactly the printed keys of its entries.  The result never has more
    entries than the input, and it has as many exactly when no two keys
    print as the same text: a collision always loses an entry. *)
Theorem convertToStringKeyMap_keys (x : list (key * value)) :
  ∃ m, convertToStringKeyMap (VMapAny x) = VMapStr m
       ∧ dom m = list_to_set (printed_keys x)
       ∧ size m ≤ length x
       ∧ (size m = length x ↔ NoDup (printed_keys x)).
Proof.
  eexists. split; [done|].
  destruct (size_list_to_set_NoDup (printed_keys x)) as [Hle Heq].
  assert (length (printed_keys x) = length x) as Hlen by apply length_fmap.
  rewrite <-(convert_map_any_dom x), size_dom, Hlen in Hle, Heq.
  split_and!; [apply convert_map_any_dom|done..].
Qed.

(** X5. When no two keys of a [map[interface{}]interface{}] print as the
    same text, nothing is lost: every entry is found in the result under
    its printed key, with its value converted. *)
Theorem convertToStringKeyMap_keeps_entries (x : list (key * value))
    (kv : key * value) :
  NoDup (printed_keys x) →
  kv ∈ x →
  ∃ m, convertToStringKeyMap (VMapAny x) = VMapStr m
       ∧ m !! Sprintf_v kv.1 = Some (convertToStringKeyMap kv.2).
Proof.
  intros Hnd Hkv. eexists. split; [done|].
  rewrite (range_insert_list_to_map (λ kv, Sprintf_v kv.1)
             (λ kv, convertToStringKeyMap kv.2)).
  apply elem_of_list_to_map_1.
  - by rewrite fmap_reverse, reverse_Permutation, <-list_fmap_compose.
  - rewrite elem_of_reverse.
    by apply (list_elem_of_fmap_2
                (λ kv, (Sprintf_v kv.1, convertToStringKeyMap kv.2))).
Qed.

Lemma convertToStringKeyMap_keeps_entries_witness :
  ∃ m, convertToStringKeyMap distinct_int_first = VMapStr m
       ∧ m !! "1" = Some (VString "a").
Proof.
  apply (convertToStringKeyMap_keeps_entries
           [(KUint64 1, VString "a"); (KString "2", VString "b")]
           (KUint64 1, VString "a")).
  - refine (bool_decide_eq_true_1 _ _). vm_compute. reflexivity.
  - left.
Defined.

Lemma itoa_inj (n m : Z) : itoa n = itoa m → n = m.
Proof.
  intros H.
  assert (∀ z, NilZero.int_of_string (itoa z) = Some (Z.to_int z)) as Hparse.
  { intros z. apply NilZero.isi; destruct z; simpl; try done.
    - intros [= Hp]. by apply DecimalPos.Unsigned.to_uint_nonnil in Hp.
    - intros [= Hp]. by apply DecimalPos.Unsigned.to_uint_nonnil in Hp. }
  pose proof (Hparse n) as Hn. rewrite H, Hparse in Hn.
  injection Hn as Hn.
  by rewrite <-(DecimalZ.of_to n), <-(DecimalZ.of_to m), Hn.
Qed.

(** X6. Two distinct keys of the same type (both unsigned integers, both
    signed integers, both text strings or both booleans) never print as the
    same text: a collision needs two keys of different types. *)
Theorem Sprintf_v_same_type_inj (k1 k2 : key) :
  same_key_type k1 k2 = true →
  Sprintf_v k1 = Sprintf_v k2 →
  k1 = k2.
Proof.
  destruct k1 as [n1|n1|s1|b1|t1], k2 as [n2|n2|s2|b2|t2]; simpl; try done.
  - by intros _ ->%itoa_inj.
  - by intros _ ->%itoa_inj.
  - by intros _ ->.
  - by destruct b1, b2.
Qed.

Lemma Sprintf_v_same_type_inj_witness : KInt64 (-257) = KInt64 (-257).
Proof.
  apply Sprintf_v_same_type_inj; reflexivity.
Defined.

(** X7. A [map[interface{}]interface{}] that holds the entries of a
    [map[string]any] under the same text keys, visited in any order, is
    converted to the same tree as the [map[string]any] itself. *)
Theorem convertToStringKeyMap_generic_string_map (x : list (key * value))
    (m : gmap string value) :
  x ≡ₚ (λ kv, (KString kv.1, kv.2)) <$> map_to_list m →
  convertToStringKeyMap (VMapAny x) = convertToStringKeyMap (VMapStr m).
Proof.
  intros Hperm. simpl. f_equal.
  rewrite (range_insert_list_to_map (λ kv, Sprintf_v kv.1)
             (λ kv, convertToStringKeyMap kv.2)).
  symmetry. apply list_to_map_flip.
  rewrite map_to_list_fmap, reverse_Permutation, Hperm.
  by rewrite <-list_fmap_compose.
Qed.

Lemma convertToStringKeyMap_generic_string_map_witness :
  convertToStringKeyMap
    (VMapAny [(KString "b", VBool true); (KString "a", VNil)])
  = convertToStringKeyMap
      (VMapStr {[ "a" := VNil; "b" := VBool true ]}).
Proof.
  apply convertToStringKeyMap_generic_string_map.
  vm_compute. apply Permutation_refl || apply Permutation_swap.
Defined.




(* ================================================================== *)
(** * Further properties of the operators *)

Lemma prefix_app (s post : string) : String.prefix s (s +:+ post) = true.
Proof.
  induction s as [|c s IH]; [by destruct post|].
  change (String c s +:+ post) with (String c (s +:+ post)). simpl.
  by destruct (Ascii.ascii_dec c c).
Qed.

Lemma contains_infix (pre sub post : string) :
  contains (pre +:+ sub +:+ post) sub = true.
Proof.
  induction pre as [|c pre IH].
  - change ("" +:+ sub +:+ post) with (sub +:+ post).
    by rewrite contains_unfold, prefix_app.
  - rewrite contains_unfold.
    change (String c pre +:+ sub +:+ post)
      with (String c (pre +:+ sub +:+ post)).
    destruct (String.prefix _ _); [done|]. exact IH.
Qed.

Lemma Errorf_w_shows_cause prefix err :
  Unwrap (Errorf_w prefix err) = Some err
  ∧ contains (Error (Errorf_w prefix err)) (Error err) = true.
Proof. split; [done|]. apply contains_suffix. Qed.

Lemma Errorf_w_s_shows_cause prefix err s :
  Unwrap (Errorf_w_s prefix err s) = Some err
  ∧ contains (Error (Errorf_w_s prefix err s)) (Error err) = true.
Proof. split; [done|]. apply contains_infix. Qed.

Section OperatorFacts.
Context {Message : Type} `{!Host Message} `{!JSONPkg}.

Lemma call_operator_000_error_keeps_message (cp : CBORProcessor)
    (msg : Message) e msg' :
  Part000.call_operator cp msg = (Some e, msg') → msg' = msg.
Proof.
  unfold Part000.call_operator. destruct (operator cp);
    eauto using to_json_000_error_keeps_message,
      from_json_000_error_keeps_message.
Qed.

Lemma call_operator_001_error_keeps_message (cp : CBORProcessor)
    (msg : Message) e msg' :
  Part001.call_operator cp msg = (Some e, msg') → msg' = msg.
Proof.
  unfold Part001.call_operator. destruct (operator cp);
    eauto using to_json_001_error_keeps_message,
      from_json_001_error_keeps_message.
Qed.

(** X9. The two variants of [to_json] return the same thing on a message
    whenever the stream decoder and [Unmarshal] agree on its payload and
    the decoded tree has no [map[interface{}]interface{}] node: the key
    normalisation of the first variant is then a no-op. *)
Theorem to_json_variants_agree (cp : CBORProcessor) (msg : Message) :
  (∀ b, AsBytes msg = Ok b →
        NewDecoder_Decode (decMode cp) b = Unmarshal (decMode cp) b) →
  (∀ b decoded, AsBytes msg = Ok b →
                Unmarshal (decMode cp) b = Ok decoded →
                no_map_any decoded = true) →
  Part000.newCBORToJSONOperator cp msg = Part001.newCBORToJSONOperator cp msg.
Proof.
  intros Hdec Hshape.
  unfold Part000.newCBORToJSONOperator, Part001.newCBORToJSONOperator.
  destruct (AsBytes msg) as [b|] eqn:Hb; [|done].
  rewrite (Hdec b eq_refl).
  destruct (Unmarshal (decMode cp) b) as [decoded|] eqn:Hd; [|done].
  by rewrite (convert_without_map_any decoded (Hshape b decoded eq_refl Hd)).
Qed.

(** X10. [from_json] followed by [to_json]. When the JSON parser yields [v]
    and the encoder yields [c] for it, [from_json] replaces the payload by
    [c]; when the host then reads [c] back and the decoder's tree for [c]
    normalises to [v] (first variant) or is [v] (second variant), [to_json]
    returns what the JSON encoder makes of [v]: the pair of processors
    re-encodes the document that was parsed. *)
Theorem from_json_then_to_json (cp1 cp2 : CBORProcessor) (msg : Message)
    (b c : bytes) (v : value) :
  AsBytes msg = Ok b →
  json_Unmarshal b = Ok v →
  Marshal (encMode cp1) v = Ok c →
  AsBytes (SetBytes c msg) = Ok c →
  let reencoded :=
    match json_Marshal v with
    | Err err =>
        (Some (Errorf_w "failed to convert CBOR to JSON: " err),
         SetBytes c msg)
    | Ok jsonData => (None, SetBytes jsonData (SetBytes c msg))
    end in
  Part000.newCBORFromJSONOperator cp1 msg = (None, SetBytes c msg)
  ∧ Part001.newCBORFromJSONOperator cp1 msg = (None, SetBytes c msg)
  ∧ (∀ v', NewDecoder_Decode (decMode cp2) c = Ok v' →
           convertToStringKeyMap v' = v →
           Part000.newCBORToJSONOperator cp2 (SetBytes c msg) = reencoded)
  ∧ (Unmarshal (decMode cp2) c = Ok v →
     Part001.newCBORToJSONOperator cp2 (SetBytes c msg) = reencoded).
Proof.
  intros Hb Hv Hc Hread. simpl. split_and!.
  - unfold Part000.newCBORFromJSONOperator. by rewrite Hb, Hv, Hc.
  - unfold Part001.newCBORFromJSONOperator. by rewrite Hb, Hv, Hc.
  - intros v' Hd Hnorm. unfold Part000.newCBORToJSONOperator.
    by rewrite Hread, Hd, Hnorm.
  - intros Hd. unfold Part001.newCBORToJSONOperator.
    by rewrite Hread, Hd.
Qed.

(** X11. Every error that an operator returns, in either variant, wraps
    the error of the step that failed: [Unwrap] gives an underlying error,
    the message starts with ["failed to "], and the underlying message is
    part of it. *)
Theorem operator_errors_wrap_cause (cp : CBORProcessor) (msg msg' : Message)
    (e : error) :
  Part000.call_operator cp msg = (Some e, msg')
  ∨ Part001.call_operator cp msg = (Some e, msg') →
  ∃ cause, Unwrap e = Some cause
           ∧ String.prefix "failed to " (Error e) = true
           ∧ contains (Error e) (Error cause) = true.
Proof.
  unfold Part000.call_operator, Part001.call_operator,
    Part000.newCBORToJSONOperator, Part000.newCBORFromJSONOperator,
    Part001.newCBORToJSONOperator, Part001.newCBORFromJSONOperator.
  intros [Hop|Hop]; destruct (operator cp);
    repeat match type of Hop with
      | context [match ?r with Ok _ => _ | Err _ => _ end] =>
          destruct r eqn:?
      end;
    simplify_eq;
    eexists;
    (split; [reflexivity|split; [reflexivity|]]);
    first [apply Errorf_w_shows_cause | apply Errorf_w_s_shows_cause].
Qed.

(** X12. [Process], in either variant, returns either an error, with no
    batch and the message as it was, or a batch of exactly one message, the
    message it was given with its new payload. *)
Theorem Process_one_in_one_out (cp : CBORProcessor) (m m' : Message)
    (r : result (list Message)) :
  Part000.Process cp m = (r, m') ∨ Part001.Process cp m = (r, m') →
  (∃ e, r = Err e ∧ m' = m) ∨ r = Ok [m'].
Proof.
  unfold Part000.Process, Part001.Process. intros [Hp|Hp].
  - destruct (Part000.call_operator cp m) as [[e|] m''] eqn:Hop;
      injection Hp as <- <-; [left|by right].
    exists e. split; [done|].
    by eapply call_operator_000_error_keeps_message.
  - destruct (Part001.call_operator cp m) as [[e|] m''] eqn:Hop;
      injection Hp as <- <-; [left|by right].
    exists e. split; [done|].
    by eapply call_operator_001_error_keeps_message.
Qed.


End OperatorFacts.

Lemma to_json_variants_agree_witness :
  @Part000.newCBORToJSONOperator RawMessage raw_host mini_json
    mini_to_json cbor_true_message
  = @Part001.newCBORToJSONOperator RawMessage raw_host mini_json
      mini_to_json cbor_true_message.
Proof.
  apply to_json_variants_agree.
  - intros b [= <-]. reflexivity.
  - intros b decoded [= <-] [= <-]. reflexivity.
Defined.

Lemma from_json_then_to_json_witness :
  @Part000.newCBORToJSONOperator RawMessage raw_host mini_json
    mini_to_json cbor_true_message = (None, true_message)
  ∧ @Part001.newCBORToJSONOperator RawMessage raw_host mini_json
      mini_to_json cbor_true_message = (None, true_message).
Proof.
  destruct (@from_json_then_to_json RawMessage raw_host mini_json
              mini_from_json mini_to_json true_message
              (list_byte_of_string "true") [xf5] (VBool true)
              eq_refl eq_refl eq_refl eq_refl) as (_ & _ & H0 & H1).
  split; [exact (H0 (VBool true) eq_refl eq_refl)|exact (H1 eq_refl)].
Defined.

Lemma operator_errors_wrap_cause_witness :
  ∃ cause,
    Unwrap (wrapError "failed to decode CBOR: cbor: unsupported item {"
              (errorString "cbor: unsupported item")) = Some cause
    ∧ String.prefix "failed to "
        "failed to decode CBOR: cbor: unsupported item {" = true
    ∧ contains "failed to decode CBOR: cbor: unsupported item {"
        (Error cause) = true.
Proof.
  apply (@operator_errors_wrap_cause RawMessage raw_host mini_json
           mini_to_json brace_message brace_message).
  left. reflexivity.
Defined.

Lemma Process_one_in_one_out_witness :
  (∃ e, Ok [true_message] = Err e ∧ true_message = cbor_true_message)
  ∨ Ok [true_message] = Ok [true_message].
Proof.
  apply (@Process_one_in_one_out RawMessage raw_host mini_json
           mini_to_json cbor_true_message true_message).
  left. reflexivity.
Defined.


(* ================================================================== *)
(** * Further properties of the construction *)

Section ConstructionFacts.
Context `{!CBORPkg}.

Lemma NewProcessor_000_operator (operatorStr : string) (p : CBORProcessor) :
  Part000.NewProcessor operatorStr = Ok p →
  strToOperator operatorStr = Ok (operator p).
Proof.
  unfold Part000.NewProcessor.
  destruct (strToOperator operatorStr) as [op|]; [|done].
  destruct (EncOptions_EncMode _); [|done].
  destruct (DecOptions_DecMode _); [|done].
  by intros [= <-].
Qed.

Lemma NewProcessor_001_operator (operatorStr : string) (p : CBORProcessor) :
  Part001.NewProcessor operatorStr = Ok p →
  strToOperator operatorStr = Ok (operator p).
Proof.
  unfold Part001.NewProcessor.
  destruct (strToOperator operatorStr) as [op|]; [|done].
  destruct (EncOptions_EncMode _); [|done].
  destruct (DecOptions_DecMode _); [|done].
  by intros [= <-].
Qed.

Lemma strToOperator_accepts (s : string) :
  (∃ op, strToOperator s = Ok op) ↔ s = "to_json" ∨ s = "from_json".
Proof.
  destruct (strToOperator_cases s)
    as [[-> ->]|[[-> ->]|(Hto & Hfrom & ->)]].
  - split; [by left|by eexists].
  - split; [by right|by eexists].
  - split; [by intros [op ?]|by intros [?|?]].
Qed.

(** X14. The second variant's [NewProcessor] returns a processor exactly
    when the operator name is recognised and the codec accepts both the
    encoder and the decoder options of that variant; the processor then
    holds the two modes that the codec built and the operator of that
    name. *)
Theorem NewProcessor_001_success (operatorStr : string) (p : CBORProcessor) :
  Part001.NewProcessor operatorStr = Ok p
  ↔ ∃ op em dm,
      strToOperator operatorStr = Ok op
      ∧ EncOptions_EncMode
          {| ByteSliceLaterFormat := Some ByteSliceLaterFormatBase64;
             String_ := Some StringToByteString;
             ByteArray := Some ByteArrayToArray |} = Ok em
      ∧ DecOptions_DecMode
          {| MapKeyByteString := Some MapKeyByteStringAllowed;
             DefaultMapType := Some TypeOf_map_string_any;
             DefaultByteStringType := Some TypeOf_string;
             ByteStringToString := Some ByteStringToStringAllowed;
             IndefLength := Some IndefLengthAllowed |} = Ok dm
      ∧ p = {| encMode := em; decMode := dm; operator := op |}.
Proof.
  unfold Part001.NewProcessor. split.
  - destruct (strToOperator operatorStr) as [op|]; [|done].
    destruct (EncOptions_EncMode _) as [em|]; [|done].
    destruct (DecOptions_DecMode _) as [dm|]; [|done].
    intros [= <-]. by exists op, em, dm.
  - intros (op & em & dm & -> & -> & -> & ->). done.
Qed.

(** X15. For a recognised operator name, a codec that rejects the encoder
    options makes [NewProcessor] return an error that wraps the codec's
    behind ["failed to create CBOR encoder: "], whatever the decoder
    options would give; a codec that accepts them and rejects the decoder
    options makes it return the codec's error behind
    ["failed to create CBOR decoder: "].  No processor is returned in
    either case, in either variant. *)
Theorem NewProcessor_codec_rejection (operatorStr : string) (op : Operator) :
  strToOperator operatorStr = Ok op →
  (∀ err,
     EncOptions_EncMode PreferredUnsortedEncOptions = Err err →
     Part000.NewProcessor operatorStr
     = Err (Errorf_w "failed to create CBOR encoder: " err))
  ∧ (∀ em err,
       EncOptions_EncMode PreferredUnsortedEncOptions = Ok em →
       DecOptions_DecMode
         {| MapKeyByteString := Some MapKeyByteStringAllowed;
            DefaultMapType := None;
            DefaultByteStringType := None;
            ByteStringToString := None;
            IndefLength := None |} = Err err →
       Part000.NewProcessor operatorStr
       = Err (Errorf_w "failed to create CBOR decoder: " err))
  ∧ (∀ err,
       EncOptions_EncMode
         {| ByteSliceLaterFormat := Some ByteSliceLaterFormatBase64;
            String_ := Some StringToByteString;
            ByteArray := Some ByteArrayToArray |} = Err err →
       Part001.NewProcessor operatorStr
       = Err (Errorf_w "failed to create CBOR encoder: " err))
  ∧ (∀ em err,
       EncOptions_EncMode
         {| ByteSliceLaterFormat := Some ByteSliceLaterFormatBase64;
            String_ := Some StringToByteString;
            ByteArray := Some ByteArrayToArray |} = Ok em →
       DecOptions_DecMode
         {| MapKeyByteString := Some MapKeyByteStringAllowed;
            DefaultMapType := Some TypeOf_map_string_any;
            DefaultByteStringType := Some TypeOf_string;
            ByteStringToString := Some ByteStringToStringAllowed;
            IndefLength := Some IndefLengthAllowed |} = Err err →
       Part001.NewProcessor operatorStr
       = Err (Errorf_w "failed to create CBOR decoder: " err)).
Proof.
  intros Hop. unfold Part000.NewProcessor, Part001.NewProcessor.
  rewrite Hop. split_and!.
  - by intros err ->.
  - by intros em err -> ->.
  - by intros err ->.
  - by intros em err -> ->.
Qed.

(** X16. The configuration field that [getCBORConfigSpec] declares is the
    field that the registered constructor reads, the values it admits are
    exactly the operator names that [strToOperator] accepts, and its
    default is the name of the [to_json] operator. *)
Theorem operator_field_matches_strToOperator :
  ∃ f, spec_fields getCBORConfigSpec = [f]
       ∧ field_name f = fieldOperator
       ∧ (∀ s, s ∈ field_options f ↔ ∃ op, strToOperator s = Ok op)
       ∧ ∃ d, field_default f = Some d ∧ strToOperator d = Ok OpToJSON.
Proof.
  eexists. split_and!; [reflexivity|reflexivity| |by eexists].
  intros s. rewrite strToOperator_accepts. simpl.
  rewrite !elem_of_cons, elem_of_nil. split.
  - intros [Hs|[Hs|[]]]; subst s; [by left|by right].
  - intros [Hs|Hs]; subst s; [by left|by right; left].
Qed.

(** X17. The constructor that [init] registers, in either variant, returns
    a processor only when the configuration has the [operator] field and
    the field holds one of the two operator names; the processor then runs
    the operator of that name.  When the field cannot be read, the
    constructor returns the configuration's own error, unwrapped. *)
Theorem init_constructor_reads_operator (conf : ParsedConfig) :
  (∀ p, Part000.init_constructor conf = Ok p
        ∨ Part001.init_constructor conf = Ok p →
        ∃ s, FieldString conf "operator" = Ok s
             ∧ (s = "to_json" ∨ s = "from_json")
             ∧ strToOperator s = Ok (operator p))
  ∧ (∀ err, FieldString conf "operator" = Err err →
            Part000.init_constructor conf = Err err
            ∧ Part001.init_constructor conf = Err err).
Proof.
  unfold Part000.init_constructor, Part001.init_constructor, fieldOperator.
  split.
  - intros p Hp.
    destruct (FieldString conf "operator") as [s|] eqn:Hs;
      [|by destruct Hp].
    assert (strToOperator s = Ok (operator p)) as Hop.
    { destruct Hp as [Hp|Hp];
        [by apply NewProcessor_000_operator
        |by apply NewProcessor_001_operator]. }
    exists s. split_and!; [done| |done].
    apply strToOperator_accepts. by eexists.
  - by intros err ->.
Qed.

End ConstructionFacts.

Lemma NewProcessor_codec_rejection_witness :
  @Part000.NewProcessor no_encoder_cbor "to_json"
  = Err (wrapError "failed to create CBOR encoder: cbor: invalid option"
           (errorString "cbor: invalid option"))
  ∧ @Part001.NewProcessor no_decoder_cbor "to_json"
    = Err (wrapError "failed to create CBOR decoder: cbor: invalid option"
             (errorString "cbor: invalid option")).
Proof.
  split.
  - destruct (@NewProcessor_codec_rejection no_encoder_cbor "to_json"
                OpToJSON eq_refl) as (H & _).
    exact (H _ eq_refl).
  - destruct (@NewProcessor_codec_rejection no_decoder_cbor "to_json"
                OpToJSON eq_refl) as (_ & _ & _ & H).
    exact (H _ _ eq_refl eq_refl).
Defined.

Lemma init_constructor_reads_operator_witness :
  (∃ s, FieldString from_json_conf "operator" = Ok s
        ∧ (s = "to_json" ∨ s = "from_json")
        ∧ strToOperator s = Ok OpFromJSON)
  ∧ @Part000.init_constructor mini_cbor empty_conf
    = Err (errorString "field not found").
Proof.
  split.
  - destruct (@init_constructor_reads_operator mini_cbor from_json_conf)
      as [H _].
    exact (H mini_from_json (or_introl eq_refl)).
  - destruct (@init_constructor_reads_operator mini_cbor empty_conf)
      as [_ H].
    exact (proj1 (H _ eq_refl)).
Defined.
